(** * Gear museum: the spur-gear profile generator and the per-frame animators

    A shallow embedding of [src/App.jsx]: the [GearGeom] component (its
    [useFrame] callback and the shape built inside [React.useMemo]), the
    [RackGeom] frame callback and the [SystemSpur] scene.

    Conventions of the model.
    - Where a statement is about the structure of what the code builds or
      about a formula it evaluates, a JavaScript number is a real number
      ([R]) and [Math.PI], [Math.cos] and [Math.sin] are [PI], [cos] and
      [sin].
    - Where a statement depends on how the arithmetic rounds (the order of
      the derived radii, the accumulation of the rotation over the frames),
      a JavaScript number is what it is in the engine, an IEEE 754 binary64
      double: [Module Double] has the same code over the primitive type
      [float], whose [+] and [*] round to nearest, ties to even.
    - The tooth count, which the source only ever uses as a loop bound and
      as a divisor, is a [nat]; it enters arithmetic through [INR].
    - A mutable three.js object ([Shape], [Path], the mesh behind
      [meshRef.current]) is a record passed through the calls that mutate it.
    - The three.js [Path]/[Shape] methods the component calls ([lineTo],
      [closePath], [absarc], [holes.push]) belong to the library, not to the
      repository; [Module Three] transcribes the library's methods. *)

From Stdlib Require Import ZArith Floats.
From Stdlib Require Import Reals Lra Lia List String Bool Arith.
Import ListNotations.

Set Warnings "-inexact-float".

Open Scope R_scope.

(** ** The part of three.js the component drives *)

Module Three.

Record Vector2 : Type := mkVector2 { vx : R; vy : R }.

(** [new Vector2()] *)
Definition zero2 : Vector2 := mkVector2 0 0.

(** [Vector2.length()] *)
Definition length2 (v : Vector2) : R := sqrt (vx v * vx v + vy v * vy v).

(** [Vector2.equals(v)]: both coordinates are [===]. *)
Definition equals2 (a b : Vector2) : bool :=
  (if Req_dec_T (vx a) (vx b) then true else false)
  && (if Req_dec_T (vy a) (vy b) then true else false).

(** The two kinds of curve a [Path] holds here.  [EllipseCurve] carries the
    constructor's arguments [aX aY xRadius yRadius aStartAngle aEndAngle
    aClockwise]. *)
Inductive Curve : Type :=
| LineCurve (v1 v2 : Vector2)
| EllipseCurve (aX aY xRadius yRadius aStartAngle aEndAngle : R)
               (aClockwise : bool).

(** [curve.getPoint(t)].  A segment returns [v2] at [t === 1] and
    [(v2 - v1) * t + v1] otherwise.  For an ellipse this is the
    counter-clockwise sweep with [aEndAngle - aStartAngle] already inside
    [0, 2*PI], the only way the component calls it ([0] to [2*PI],
    [aClockwise = false]): the normalising loops of the library do not
    run. *)
Definition getPoint (c : Curve) (t : R) : Vector2 :=
  match c with
  | LineCurve v1 v2 =>
      if Req_dec_T t 1 then v2
      else mkVector2 ((vx v2 - vx v1) * t + vx v1)
                     ((vy v2 - vy v1) * t + vy v1)
  | EllipseCurve aX aY xRadius yRadius aStartAngle aEndAngle _ =>
      let angle := aStartAngle + t * (aEndAngle - aStartAngle) in
      mkVector2 (aX + xRadius * cos angle) (aY + yRadius * sin angle)
  end.

(** A [Path]: the list of curves of [CurvePath] and the pen position. *)
Record Path : Type := mkPath { curves : list Curve; currentPoint : Vector2 }.

(** [new THREE.Path()]: no curve, the pen at [new Vector2()]. *)
Definition newPath : Path := mkPath [] zero2.

(** [path.lineTo(x, y)]: push a segment from the pen to the point, then
    move the pen there. *)
Definition lineTo (x y : R) (p : Path) : Path :=
  mkPath (curves p ++ [LineCurve (currentPoint p) (mkVector2 x y)])
         (mkVector2 x y).

(** [path.closePath()]: when the start of the first curve and the end of the
    last one differ, push the segment that joins them.  The pen stays.  On
    a path without curves the library reads [curves[0]] of an empty array
    and throws: [None]. *)
Definition closePath (p : Path) : option Path :=
  match curves p with
  | [] => None
  | c0 :: _ =>
      let startPoint := getPoint c0 0 in
      let endPoint := getPoint (last (curves p) c0) 1 in
      if equals2 startPoint endPoint then Some p
      else Some (mkPath (curves p ++ [LineCurve endPoint startPoint])
                        (currentPoint p))
  end.

(** [path.absarc(aX, aY, aRadius, aStartAngle, aEndAngle, aClockwise)]:
    an ellipse with both radii [aRadius]; a path that already has curves is
    first joined to the arc's first point by a segment. *)
Definition absarc (aX aY aRadius aStartAngle aEndAngle : R)
           (aClockwise : bool) (p : Path) : Path :=
  let curve :=
    EllipseCurve aX aY aRadius aRadius aStartAngle aEndAngle aClockwise in
  let firstPoint := getPoint curve 0 in
  let p1 :=
    match curves p with
    | [] => p
    | _ :: _ =>
        if equals2 firstPoint (currentPoint p) then p
        else lineTo (vx firstPoint) (vy firstPoint) p
    end in
  mkPath (curves p1 ++ [curve]) (getPoint curve 1).

(** A [Shape] is a [Path] with a list of hole paths. *)
Record Shape : Type := mkShape { outline : Path; holes : list Path }.

(** [new THREE.Shape()] *)
Definition newShape : Shape := mkShape newPath [].

(** A method of [Path] called on a shape acts on its outline. *)
Definition onOutline (f : Path -> Path) (s : Shape) : Shape :=
  mkShape (f (outline s)) (holes s).

(** [s.holes.push(hole)] *)
Definition pushHole (hole : Path) (s : Shape) : Shape :=
  mkShape (outline s) (holes s ++ [hole]).

(** Euler angles and positions: three numbers each. *)
Record Vector3 : Type := mkVector3 { x3 : R; y3 : R; z3 : R }.

(** The part of a mesh's transform the frame callbacks touch. *)
Record Mesh : Type := mkMesh { position : Vector3; rotation : Vector3 }.

End Three.

(** ** JavaScript control flow *)

(** [for (let i = lo; i < lo + count; i++) body], the loop variable a
    natural number and the loop's state threaded through the bodies. *)
Fixpoint forRange {St : Type} (body : nat -> St -> St) (lo count : nat)
         (s : St) : St :=
  match count with
  | O => s
  | S count' => forRange body (S lo) count' (body lo s)
  end.

(** ** [GearGeom] *)

Module GearGeom.

(** The component's props; an array of three numbers is a [Three.Vector3]. *)
Record Props : Type := mkProps {
  teeth : nat;
  radius : R;
  width : R;
  color : string;
  speed : R;
  position : Three.Vector3;
  rotation : Three.Vector3;
  axis : string
}.

(** The defaults of the destructuring pattern. *)
Definition defaults : Props :=
  mkProps 12 1 0.5 "orange" 1
          (Three.mkVector3 0 0 0) (Three.mkVector3 0 0 0) "y".

(** *** The animation loop *)

Definition addRotationX (d : R) (m : Three.Mesh) : Three.Mesh :=
  let r := Three.rotation m in
  Three.mkMesh (Three.position m)
               (Three.mkVector3 (Three.x3 r + d) (Three.y3 r) (Three.z3 r)).

Definition addRotationY (d : R) (m : Three.Mesh) : Three.Mesh :=
  let r := Three.rotation m in
  Three.mkMesh (Three.position m)
               (Three.mkVector3 (Three.x3 r) (Three.y3 r + d) (Three.z3 r)).

Definition addRotationZ (d : R) (m : Three.Mesh) : Three.Mesh :=
  let r := Three.rotation m in
  Three.mkMesh (Three.position m)
               (Three.mkVector3 (Three.x3 r) (Three.y3 r) (Three.z3 r + d)).

(** The [useFrame] callback, on the mesh behind [meshRef.current]: three
    independent tests on [axis], in the source's order. *)
Definition frameMesh (p : Props) (delta : R) (m : Three.Mesh) : Three.Mesh :=
  let m := if (axis p =? "y")%string
           then addRotationY (speed p * delta) m else m in
  let m := if (axis p =? "x")%string
           then addRotationX (speed p * delta) m else m in
  let m := if (axis p =? "z")%string
           then addRotationZ (speed p * delta) m else m in
  m.

(** [meshRef.current] is [None] until the mesh is mounted; the callback
    then does nothing. *)
Definition frame (p : Props) (delta : R) (current : option Three.Mesh)
  : option Three.Mesh :=
  match current with
  | Some m => Some (frameMesh p delta m)
  | None => None
  end.

(** The frames of a session: one callback per delta, in order. *)
Definition frames (p : Props) (deltas : list R)
           (current : option Three.Mesh) : option Three.Mesh :=
  fold_left (fun cur delta => frame p delta cur) deltas current.

(** [<mesh ref={meshRef} position={position} rotation={rotation}>]: the
    mounted mesh starts at the props' transform. *)
Definition mount (p : Props) : option Three.Mesh :=
  Some (Three.mkMesh (position p) (rotation p)).

(** *** The shape *)

Definition outerRadius (radius : R) : R := radius * 1.1.
Definition innerRadius (radius : R) : R := radius * 0.9.
Definition holeRadius (radius : R) : R := radius * 0.2.

(** The body of the loop that draws the teeth, for tooth [i] of [n]. *)
Definition tooth (n : nat) (radius : R) (i : nat) (s : Three.Shape)
  : Three.Shape :=
  let angle := (INR i / INR n) * PI * 2 in
  let angleNext := ((INR i + 1) / INR n) * PI * 2 in
  let angleHalf := (angle + angleNext) / 2 in
  let s := Three.onOutline
             (Three.lineTo (cos angle * innerRadius radius)
                           (sin angle * innerRadius radius)) s in
  let s := Three.onOutline
             (Three.lineTo (cos angle * outerRadius radius)
                           (sin angle * outerRadius radius)) s in
  let s := Three.onOutline
             (Three.lineTo (cos angleHalf * outerRadius radius)
                           (sin angleHalf * outerRadius radius)) s in
  let s := Three.onOutline
             (Three.lineTo (cos angleHalf * innerRadius radius)
                           (sin angleHalf * innerRadius radius)) s in
  s.

(** The shape as the loop leaves it, before [s.closePath()]. *)
Definition drawTeeth (n : nat) (radius : R) : Three.Shape :=
  forRange (tooth n radius) 0 n Three.newShape.

(** The centre hole: [new THREE.Path()] after [absarc]. *)
Definition centerHole (radius : R) : Three.Path :=
  Three.absarc 0 0 (holeRadius radius) 0 (PI * 2) false Three.newPath.

(** The function given to [React.useMemo]; [None] when [closePath]
    throws.  It reads [teeth] and [radius] of the props, the two
    dependencies it is memoised on. *)
Definition shape (p : Props) : option Three.Shape :=
  let s := drawTeeth (teeth p) (radius p) in
  match Three.closePath (Three.outline s) with
  | None => None
  | Some o =>
      Some (Three.pushHole (centerHole (radius p))
                           (Three.mkShape o (Three.holes s)))
  end.

(** [extrudeSettings] *)
Record ExtrudeSettings : Type := mkExtrudeSettings {
  depth : R;
  bevelEnabled : bool;
  bevelSegments : nat;
  steps : nat;
  bevelSize : R;
  bevelThickness : R
}.

Definition extrudeSettings (p : Props) : ExtrudeSettings :=
  mkExtrudeSettings (width p) true 2 1 0.05 0.05.

End GearGeom.

(** ** [RackGeom] *)

Module RackGeom.

Record Props : Type := mkProps { width : R; speed : R }.

Definition defaults : Props := mkProps 4 1.

(** [<mesh ref={meshRef} position={[0, -1.1, 0]}>]; a mesh's rotation
    starts at zero. *)
Definition mount : option Three.Mesh :=
  Some (Three.mkMesh (Three.mkVector3 0 (-1.1) 0) (Three.mkVector3 0 0 0)).

Definition setPositionX (v : R) (m : Three.Mesh) : Three.Mesh :=
  let q := Three.position m in
  Three.mkMesh (Three.mkVector3 v (Three.y3 q) (Three.z3 q))
               (Three.rotation m).

(** The [useFrame] callback; [elapsedTime] is [state.clock.elapsedTime]. *)
Definition frame (p : Props) (elapsedTime : R)
           (current : option Three.Mesh) : option Three.Mesh :=
  match current with
  | Some m => Some (setPositionX (sin (elapsedTime * speed p) * 1.5) m)
  | None => None
  end.

End RackGeom.

(** ** [WormGeom] *)

Module WormGeom.

Record Props : Type := mkProps { speed : R }.

Definition defaults : Props := mkProps 2.

(** [<mesh ref={meshRef} position={[0, 1.2, 0]}
    rotation={[Math.PI/2, 0, 0]}>] *)
Definition mount : option Three.Mesh :=
  Some (Three.mkMesh (Three.mkVector3 0 1.2 0)
                     (Three.mkVector3 (PI / 2) 0 0)).

(** The [useFrame] callback: [rotation.z += speed * delta] on a mounted
    mesh. *)
Definition frame (p : Props) (delta : R) (current : option Three.Mesh)
  : option Three.Mesh :=
  match current with
  | Some m => Some (GearGeom.addRotationZ (speed p * delta) m)
  | None => None
  end.

End WormGeom.

(** ** The systems *)


Module SystemSpur.

(** The two gears of the group, in the order of the JSX; props that are not
    given take the defaults. *)
Definition gearA : GearGeom.Props :=
  GearGeom.mkProps 12 1 (GearGeom.width GearGeom.defaults) "#ffaa00" 1
    (Three.mkVector3 (-1.05) 0 0)
    (GearGeom.rotation GearGeom.defaults)
    (GearGeom.axis GearGeom.defaults).

Definition gearB : GearGeom.Props :=
  GearGeom.mkProps 12 1 (GearGeom.width GearGeom.defaults) "#00aaff" (-1)
    (Three.mkVector3 1.05 0 0)
    (Three.mkVector3 0 0 (PI / 12))
    (GearGeom.axis GearGeom.defaults).



End SystemSpur.

(** ** The other systems and the catalogue *)

(** What a system's group holds: components with a frame callback, meshes
    without one (their geometry and material do not matter here) and the
    grid helper. *)
Inductive Solid : Type :=
| GearSolid (p : GearGeom.Props)
| RackSolid (p : RackGeom.Props)
| WormSolid (p : WormGeom.Props)
| StaticMesh (position rotation : Three.Vector3)
| GridHelper.

(** [<group rotation={...}>] and its children, in the order of the JSX; a
    group without the prop is not rotated. *)
Record Scene : Type := mkScene {
  groupRotation : Three.Vector3;
  solids : list Solid
}.

Definition SystemSpurScene : Scene :=
  mkScene (Three.mkVector3 0 0 0)
          [GearSolid SystemSpur.gearA; GearSolid SystemSpur.gearB].

Module SystemRackPinion.

Definition pinion : GearGeom.Props :=
  GearGeom.mkProps 12 1 (GearGeom.width GearGeom.defaults) "#ffaa00" 2
    (Three.mkVector3 0 0 0)
    (GearGeom.rotation GearGeom.defaults)
    (GearGeom.axis GearGeom.defaults).

Definition scene : Scene :=
  mkScene (Three.mkVector3 0 0 0)
          [GearSolid pinion; RackSolid RackGeom.defaults].

End SystemRackPinion.

Module SystemBevel.

Definition gearA : GearGeom.Props :=
  GearGeom.mkProps (GearGeom.teeth GearGeom.defaults)
    (GearGeom.radius GearGeom.defaults)
    (GearGeom.width GearGeom.defaults) "lightgreen" 1
    (Three.mkVector3 0 (-0.9) 0)
    (Three.mkVector3 (PI / 2) 0 0) "z".

Definition gearB : GearGeom.Props :=
  GearGeom.mkProps (GearGeom.teeth GearGeom.defaults)
    (GearGeom.radius GearGeom.defaults)
    (GearGeom.width GearGeom.defaults) "orange" (-1)
    (Three.mkVector3 0 0.9 0)
    (Three.mkVector3 (- PI / 2) 0 0) "z".

Definition scene : Scene :=
  mkScene (Three.mkVector3 0.5 0.5 0)
          [GearSolid gearA; GearSolid gearB;
           StaticMesh (Three.mkVector3 0 0 0) (Three.mkVector3 0 0 (PI / 2))].

End SystemBevel.

Module SystemWorm.

Definition wheel : GearGeom.Props :=
  GearGeom.mkProps (GearGeom.teeth GearGeom.defaults)
    (GearGeom.radius GearGeom.defaults) 0.2 "gold" 0.1
    (Three.mkVector3 0 (-0.5) 0)
    (Three.mkVector3 0 0 0) "y".

Definition scene : Scene :=
  mkScene (Three.mkVector3 0 0 0)
          [WormSolid WormGeom.defaults; GearSolid wheel].

End SystemWorm.

Module SystemHelical.

Definition scene : Scene :=
  mkScene (Three.mkVector3 0 0 0)
          [StaticMesh (Three.mkVector3 0 0 0) (Three.mkVector3 0.2 0 0);
           StaticMesh (Three.mkVector3 1.2 0 0) (Three.mkVector3 (-0.2) 0 0);
           GridHelper].

End SystemHelical.

Module SystemGeneric.

Definition gear (color : string) : GearGeom.Props :=
  GearGeom.mkProps (GearGeom.teeth GearGeom.defaults)
    (GearGeom.radius GearGeom.defaults)
    (GearGeom.width GearGeom.defaults) color 2
    (GearGeom.position GearGeom.defaults)
    (GearGeom.rotation GearGeom.defaults)
    (GearGeom.axis GearGeom.defaults).

Definition scene (color : string) : Scene :=
  mkScene (Three.mkVector3 0.5 0.5 0) [GearSolid (gear color)].

End SystemGeneric.

(** [gearSystems]: the [Component] of an entry is the scene it renders. *)
Record CatalogEntry : Type := mkCatalogEntry {
  id : nat;
  title : string;
  Component : Scene;
  desc : string;
  uses : string;
  history : string
}.

Definition gearSystems : list CatalogEntry :=
  [ mkCatalogEntry 1 "Spur Gears" SystemSpurScene
      "The most common type of gear. Straight teeth parallel to the axis."
      "Clocks, washing machines, power plants."
      "Invented in ancient Greece, improved during the Industrial Revolution.";
    mkCatalogEntry 2 "Rack and Pinion" SystemRackPinion.scene
      "Converts rotational motion into linear motion."
      "Car steering systems, stairlifts, railways."
      "Used in China and Rome for crossbow mechanisms.";
    mkCatalogEntry 3 "Worm Gear" SystemWorm.scene
      "A gear in the form of a screw that meshes with a worm wheel."
      "Tuning instruments, elevators, conveyor belts."
      "Attributed to Archimedes.";
    mkCatalogEntry 4 "Bevel Gears" SystemBevel.scene
      "Cone-shaped gears that transmit power between intersecting axles."
      "Hand drills, differential drives in cars."
      "Used in ancient windmills.";
    mkCatalogEntry 5 "Helical Gears" SystemHelical.scene
      "Teeth are cut at an angle. Smoother and quieter than spur gears."
      "Car transmissions."
      "Developed in the 19th century.";
    mkCatalogEntry 6 "Planetary Gears" (SystemGeneric.scene "red")
      "A central sun gear with orbiting planet gears."
      "Automatic transmissions."
      "Ancient Greek Antikythera mechanism.";
    mkCatalogEntry 7 "Spiral Bevel" (SystemGeneric.scene "purple")
      "Bevel gears with curved teeth."
      "High performance vehicles."
      "Early 20th century.";
    mkCatalogEntry 8 "Hypoid Gears" (SystemGeneric.scene "green")
      "Similar to bevel, but axes do not intersect."
      "Rear-wheel drive axles."
      "1920s automotive industry.";
    mkCatalogEntry 9 "Herringbone" (SystemGeneric.scene "yellow")
      "Double helical gear, looks like a V."
      "Heavy machinery."
      "Invented by André Citroën.";
    mkCatalogEntry 10 "Screw Gears" (SystemGeneric.scene "teal")
      "Crossed helical gears for non-parallel axes."
      "Light loads, instrument drives."
      "Renaissance mechanics." ].

(** ** Frames of a scene *)

(** What the framework hands a callback at one frame: the clock's
    [elapsedTime] (read through [state.clock]) and [delta]. *)
Record Frame : Type := mkFrame { elapsedTime : R; delta : R }.

(** A solid's mesh once mounted; the grid helper is no mesh of interest. *)
Definition mountSolid (s : Solid) : option Three.Mesh :=
  match s with
  | GearSolid p => GearGeom.mount p
  | RackSolid _ => RackGeom.mount
  | WormSolid _ => WormGeom.mount
  | StaticMesh position rotation => Some (Three.mkMesh position rotation)
  | GridHelper => None
  end.

(** One frame for one solid: its own callback, if it has one. *)
Definition stepSolid (f : Frame) (s : Solid) (current : option Three.Mesh)
  : option Three.Mesh :=
  match s with
  | GearSolid p => GearGeom.frame p (delta f) current
  | RackSolid p => RackGeom.frame p (elapsedTime f) current
  | WormSolid p => WormGeom.frame p (delta f) current
  | StaticMesh _ _ => current
  | GridHelper => current
  end.

Definition runSolid (fs : list Frame) (s : Solid) : option Three.Mesh :=
  fold_left (fun cur f => stepSolid f s cur) fs (mountSolid s).

Definition animateScene (fs : list Frame) (sc : Scene)
  : list (option Three.Mesh) :=
  map (runSolid fs) (solids sc).

(** ** Vocabulary of the statements *)

(** The three axes a [MotionSpec] names, and the strings the component
    compares [axis] with. *)
Inductive Axis : Type := AxisX | AxisY | AxisZ.

Definition axisName (a : Axis) : string :=
  match a with
  | AxisX => "x"
  | AxisY => "y"
  | AxisZ => "z"
  end%string.

Definition component (a : Axis) (v : Three.Vector3) : R :=
  match a with
  | AxisX => Three.x3 v
  | AxisY => Three.y3 v
  | AxisZ => Three.z3 v
  end.

(** The update a frame makes on axis [a]. *)
Definition addRotation (a : Axis) : R -> Three.Mesh -> Three.Mesh :=
  match a with
  | AxisX => GearGeom.addRotationX
  | AxisY => GearGeom.addRotationY
  | AxisZ => GearGeom.addRotationZ
  end.


(** The segments a pen at [from] draws through [pts]. *)
Fixpoint chain (from : Three.Vector2) (pts : list Three.Vector2)
  : list Three.Curve :=
  match pts with
  | [] => []
  | q :: rest => Three.LineCurve from q :: chain q rest
  end.

(** Where a curve ends. *)
Definition endOf (c : Three.Curve) : Three.Vector2 := Three.getPoint c 1.

(** The points a path was asked to draw lines to: the end of each of its
    segments. *)
Definition emitted (p : Three.Path) : list Three.Vector2 :=
  map endOf (Three.curves p).

(** The vertices of a path made of segments, in drawing order: where the
    first segment starts, then where each segment ends. *)
Definition vertices (p : Three.Path) : list Three.Vector2 :=
  match Three.curves p with
  | [] => []
  | c0 :: _ => Three.getPoint c0 0 :: emitted p
  end.

(** The specification's sector: [(cos a, sin a)] scaled by a radius, and the
    four boundary points of sector [i] in the order the specification lists
    them. *)
Definition unitAt (a : R) : Three.Vector2 := Three.mkVector2 (cos a) (sin a).

Definition scale2 (v : Three.Vector2) (k : R) : Three.Vector2 :=
  Three.mkVector2 (Three.vx v * k) (Three.vy v * k).

Definition sectorAngle (toothCount i : nat) : R :=
  INR i / INR toothCount * (2 * PI).

Definition sectorMid (toothCount i : nat) : R :=
  (sectorAngle toothCount i + sectorAngle toothCount (S i)) / 2.

Definition sectorPoints (toothCount : nat) (baseRadius : R) (i : nat)
  : list Three.Vector2 :=
  [ scale2 (unitAt (sectorAngle toothCount i))
           (GearGeom.innerRadius baseRadius);
    scale2 (unitAt (sectorAngle toothCount i))
           (GearGeom.outerRadius baseRadius);
    scale2 (unitAt (sectorMid toothCount i))
           (GearGeom.outerRadius baseRadius);
    scale2 (unitAt (sectorMid toothCount i))
           (GearGeom.innerRadius baseRadius) ].

Definition boundaryPoints (toothCount : nat) (baseRadius : R)
  : list Three.Vector2 :=
  flat_map (sectorPoints toothCount baseRadius) (seq 0 toothCount).

(** The start point of sector 0: the inner-radius point at angle 0. *)
Definition sectorStart (baseRadius : R) : Three.Vector2 :=
  Three.mkVector2 (GearGeom.innerRadius baseRadius) 0.

(** A path is a circle of radius [rho] about [c] when it is one closed curve
    all of whose points are at distance [rho] from [c]. *)
Definition offset (c v : Three.Vector2) : Three.Vector2 :=
  Three.mkVector2 (Three.vx v - Three.vx c) (Three.vy v - Three.vy c).

Definition isCircle (c : Three.Vector2) (rho : R) (p : Three.Path) : Prop :=
  exists curve,
    Three.curves p = [curve]
    /\ Three.getPoint curve 0 = Three.getPoint curve 1
    /\ (forall t, Three.length2 (offset c (Three.getPoint curve t)) = rho)
    /\ (forall theta, 0 <= theta <= 2 * PI ->
         exists t, 0 <= t <= 1
           /\ offset c (Three.getPoint curve t) = scale2 (unitAt theta) rho).

(** [drawn s pts s']: the shape [s'] is [s] after its pen drew lines through
    [pts]; the holes are those of [s]. *)
Definition drawn (s : Three.Shape) (pts : list Three.Vector2)
           (s' : Three.Shape) : Prop :=
  Three.curves (Three.outline s')
  = Three.curves (Three.outline s)
    ++ chain (Three.currentPoint (Three.outline s)) pts
  /\ Three.currentPoint (Three.outline s')
     = last pts (Three.currentPoint (Three.outline s))
  /\ Three.holes s' = Three.holes s.

(** The gears of a scene. *)
Definition gearsOf (sc : Scene) : list GearGeom.Props :=
  flat_map (fun s => match s with GearSolid p => [p] | _ => [] end)
           (solids sc).

(** A path is a closed polyline when its curves are the segments a pen
    draws from [from] through some points, the last of which is [from]. *)
Definition closedPolyline (p : Three.Path) : Prop :=
  exists from pts,
    pts <> []
    /\ Three.curves p = chain from pts
    /\ last pts from = from.

(** ** The arithmetic of the code over IEEE doubles *)

Module Double.

(** The derived radii: each a product of two doubles, rounded.  A decimal
    literal stands for the double nearest to it, as in JavaScript. *)
Definition outerRadius (radius : float) : float := (radius * 1.1)%float.
Definition innerRadius (radius : float) : float := (radius * 0.9)%float.
Definition holeRadius (radius : float) : float := (radius * 0.2)%float.

(** A mesh's transform, its numbers doubles. *)
Record Vector3 : Type := mkVector3 { x3 : float; y3 : float; z3 : float }.

Record Mesh : Type := mkMesh { position : Vector3; rotation : Vector3 }.

Definition component (a : Axis) (v : Vector3) : float :=
  match a with
  | AxisX => x3 v
  | AxisY => y3 v
  | AxisZ => z3 v
  end.

(** [rotation.x += d], [rotation.y += d], [rotation.z += d] *)
Definition addRotationX (d : float) (m : Mesh) : Mesh :=
  let r := rotation m in
  mkMesh (position m) (mkVector3 (x3 r + d)%float (y3 r) (z3 r)).

Definition addRotationY (d : float) (m : Mesh) : Mesh :=
  let r := rotation m in
  mkMesh (position m) (mkVector3 (x3 r) (y3 r + d)%float (z3 r)).

Definition addRotationZ (d : float) (m : Mesh) : Mesh :=
  let r := rotation m in
  mkMesh (position m) (mkVector3 (x3 r) (y3 r) (z3 r + d)%float).

Definition addRotation (a : Axis) : float -> Mesh -> Mesh :=
  match a with
  | AxisX => addRotationX
  | AxisY => addRotationY
  | AxisZ => addRotationZ
  end.

(** The [useFrame] callback of [GearGeom]; of the props it reads [axis] and
    [speed]. *)
Definition frameMesh (axis : string) (speed delta : float) (m : Mesh)
  : Mesh :=
  let m := if (axis =? "y")%string
           then addRotationY (speed * delta)%float m else m in
  let m := if (axis =? "x")%string
           then addRotationX (speed * delta)%float m else m in
  let m := if (axis =? "z")%string
           then addRotationZ (speed * delta)%float m else m in
  m.

Definition frame (axis : string) (speed delta : float)
           (current : option Mesh) : option Mesh :=
  match current with
  | Some m => Some (frameMesh axis speed delta m)
  | None => None
  end.

Definition frames (axis : string) (speed : float) (deltas : list float)
           (current : option Mesh) : option Mesh :=
  fold_left (fun cur delta => frame axis speed delta cur) deltas current.

(** The [useFrame] callback of [WormGeom] and its frames. *)
Definition wormFrame (speed delta : float) (current : option Mesh)
  : option Mesh :=
  match current with
  | Some m => Some (addRotationZ (speed * delta)%float m)
  | None => None
  end.

Definition wormFrames (speed : float) (deltas : list float)
           (current : option Mesh) : option Mesh :=
  fold_left (fun cur delta => wormFrame speed delta cur) deltas current.

(** What the frames leave on one component of the rotation: the rounded
    sum, taken from left to right, of the rounded products. *)
Definition accumulate (speed : float) (deltas : list float) (r0 : float)
  : float :=
  fold_left (fun r delta => (r + speed * delta)%float) deltas r0.

End Double.

(** ** Points, segments and pens *)

Section Geometry.

Import Three.

Lemma Vector2_eq (a b : Vector2) :
  vx a = vx b -> vy a = vy b -> a = b.
Proof. destruct a, b; simpl; intros -> ->; reflexivity. Qed.

Lemma getPoint_line_start (a b : Vector2) : getPoint (LineCurve a b) 0 = a.
Proof.
  cbn [getPoint]. destruct (Req_dec_T 0 1) as [E | _]; [lra|].
  apply Vector2_eq; simpl; ring.
Qed.

Lemma getPoint_line_end (a b : Vector2) : getPoint (LineCurve a b) 1 = b.
Proof.
  cbn [getPoint]. destruct (Req_dec_T 1 1) as [_ | E]; [reflexivity|].
  now contradiction E.
Qed.

Lemma equals2_true (a b : Vector2) : equals2 a b = true <-> a = b.
Proof.
  unfold equals2.
  destruct (Req_dec_T (vx a) (vx b)) as [Hx | Hx];
    destruct (Req_dec_T (vy a) (vy b)) as [Hy | Hy]; simpl; split;
    intros H; try discriminate; try reflexivity;
    try (now apply Vector2_eq); subst; contradiction.
Qed.

Lemma equals2_false (a b : Vector2) : a <> b -> equals2 a b = false.
Proof.
  intros Hne. destruct (equals2 a b) eqn:E; [|reflexivity].
  apply equals2_true in E. contradiction.
Qed.

Lemma length2_zero2 : length2 zero2 = 0.
Proof.
  unfold length2, zero2; simpl. rewrite Rmult_0_l, Rplus_0_l. apply sqrt_0.
Qed.

(** A point on the unit circle, scaled by [k >= 0], is at distance [k]. *)
Lemma length2_scale_unit (a k : R) :
  0 <= k -> length2 (scale2 (unitAt a) k) = k.
Proof.
  intros Hk. unfold length2, scale2, unitAt; simpl.
  replace (cos a * k * (cos a * k) + sin a * k * (sin a * k))
    with ((sin a * sin a + cos a * cos a) * (k * k)) by ring.
  fold (Rsqr (sin a)) (Rsqr (cos a)) (Rsqr k).
  rewrite sin2_cos2, Rmult_1_l. apply sqrt_Rsqr; exact Hk.
Qed.

Lemma scale_unit_nonzero (a k : R) : 0 < k -> scale2 (unitAt a) k <> zero2.
Proof.
  intros Hk Heq.
  assert (H : length2 (scale2 (unitAt a) k) = k)
    by (apply length2_scale_unit; lra).
  rewrite Heq, length2_zero2 in H. lra.
Qed.

Lemma last_cons {A : Type} (a d : A) (l : list A) :
  last (a :: l) d = last l a.
Proof.
  revert a d; induction l as [|b l IH]; intros a d; [reflexivity|].
  change (last (a :: b :: l) d) with (last (b :: l) d).
  now rewrite (IH b d), (IH b a).
Qed.

Lemma chain_app (from : Vector2) (p q : list Vector2) :
  chain from (p ++ q) = chain from p ++ chain (last p from) q.
Proof.
  revert from; induction p as [|a p IH]; intros from; [reflexivity|].
  rewrite last_cons. cbn [app chain]. now rewrite IH.
Qed.

Lemma ends_of_chain (from : Vector2) (pts : list Vector2) :
  map endOf (chain from pts) = pts.
Proof.
  revert from; induction pts as [|q pts IH]; intros from; [reflexivity|].
  cbn [chain map]. unfold endOf at 1. rewrite getPoint_line_end, IH.
  reflexivity.
Qed.

Lemma length_chain (from : Vector2) (pts : list Vector2) :
  List.length (chain from pts) = List.length pts.
Proof. rewrite <- (ends_of_chain from pts) at 2. now rewrite length_map. Qed.

End Geometry.

(** ** What the loop draws *)

Section Drawing.

Import Three.

Lemma drawn_nil (s : Shape) : drawn s [] s.
Proof. unfold drawn; cbn [chain last]. now rewrite app_nil_r. Qed.

Lemma drawn_lineTo (x y : R) (s : Shape) :
  drawn s [mkVector2 x y] (onOutline (lineTo x y) s).
Proof. unfold drawn, onOutline, lineTo; simpl. auto. Qed.

Lemma drawn_trans (s1 s2 s3 : Shape) (p q : list Vector2) :
  drawn s1 p s2 -> drawn s2 q s3 -> drawn s1 (p ++ q) s3.
Proof.
  intros (Hc1 & Hp1 & Hh1) (Hc2 & Hp2 & Hh2). unfold drawn.
  rewrite Hc2, Hc1, Hp1, Hp2, Hp1, Hh2, Hh1, chain_app, <- app_assoc.
  repeat split. clear. revert p.
  induction q as [|b q IH] using rev_ind; intros p.
  - now rewrite app_nil_r.
  - now rewrite app_assoc, !last_last.
Qed.

(** The angles the source computes are the specification's. *)
Lemma angle_spec (n i : nat) : INR i / INR n * PI * 2 = sectorAngle n i.
Proof. unfold sectorAngle, Rdiv. ring. Qed.

Lemma angleHalf_spec (n i : nat) :
  (INR i / INR n * PI * 2 + (INR i + 1) / INR n * PI * 2) / 2
  = sectorMid n i.
Proof. unfold sectorMid, sectorAngle. rewrite S_INR. unfold Rdiv. ring. Qed.

(** One turn of the loop draws the four points of its sector. *)
Lemma drawn_tooth (n : nat) (radius : R) (i : nat) (s : Shape) :
  drawn s (sectorPoints n radius i) (GearGeom.tooth n radius i s).
Proof.
  unfold GearGeom.tooth. cbv zeta. rewrite angleHalf_spec, angle_spec.
  change (sectorPoints n radius i)
    with ([scale2 (unitAt (sectorAngle n i)) (GearGeom.innerRadius radius)]
          ++ [scale2 (unitAt (sectorAngle n i))
                     (GearGeom.outerRadius radius)]
          ++ [scale2 (unitAt (sectorMid n i)) (GearGeom.outerRadius radius)]
          ++ [scale2 (unitAt (sectorMid n i))
                     (GearGeom.innerRadius radius)]).
  repeat (eapply drawn_trans; [apply drawn_lineTo|]).
  apply drawn_lineTo.
Qed.

Lemma drawn_forRange (n : nat) (radius : R) (count lo : nat) (s : Shape) :
  drawn s (flat_map (sectorPoints n radius) (seq lo count))
        (forRange (GearGeom.tooth n radius) lo count s).
Proof.
  revert lo s; induction count as [|count IH]; intros lo s.
  - apply drawn_nil.
  - cbn [seq flat_map forRange].
    eapply drawn_trans; [apply drawn_tooth | apply IH].
Qed.

Lemma drawn_drawTeeth (n : nat) (radius : R) :
  drawn newShape (boundaryPoints n radius) (GearGeom.drawTeeth n radius).
Proof. apply drawn_forRange. Qed.

Lemma curves_drawTeeth (n : nat) (radius : R) :
  curves (outline (GearGeom.drawTeeth n radius))
  = chain zero2 (boundaryPoints n radius).
Proof. now destruct (drawn_drawTeeth n radius) as (-> & _). Qed.

Lemma length_boundaryPoints (n : nat) (radius : R) :
  List.length (boundaryPoints n radius) = (4 * n)%nat.
Proof.
  unfold boundaryPoints.
  enough (H : forall count lo,
             List.length (flat_map (sectorPoints n radius) (seq lo count))
             = (4 * count)%nat) by apply H.
  induction count as [|count IH]; intros lo; [reflexivity|].
  cbn [seq flat_map]. rewrite length_app, IH. simpl. lia.
Qed.

End Drawing.

(** ** The finished shape *)

Section Shape.

Import Three.

Lemma radii_positive (radius : R) :
  0 < radius ->
  0 < GearGeom.holeRadius radius
  /\ 0 < GearGeom.innerRadius radius
  /\ 0 < GearGeom.outerRadius radius.
Proof.
  unfold GearGeom.holeRadius, GearGeom.innerRadius, GearGeom.outerRadius.
  intros H; repeat split; lra.
Qed.

(** Every point the loop draws to sits on the inner or on the outer
    circle. *)
Lemma boundaryPoints_polar (n : nat) (radius : R) (q : Vector2) :
  In q (boundaryPoints n radius) ->
  exists a, q = scale2 (unitAt a) (GearGeom.innerRadius radius)
         \/ q = scale2 (unitAt a) (GearGeom.outerRadius radius).
Proof.
  unfold boundaryPoints. rewrite in_flat_map.
  intros (i & _ & Hq). unfold sectorPoints in Hq.
  cbn [In] in Hq.
  destruct Hq as [<- | [<- | [<- | [<- | []]]]]; eauto.
Qed.

Lemma boundaryPoints_head (n : nat) (radius : R) :
  (1 <= n)%nat ->
  exists rest,
    boundaryPoints n radius
    = scale2 (unitAt (sectorAngle n 0)) (GearGeom.innerRadius radius)
      :: rest.
Proof.
  intros Hn. destruct n as [|n]; [lia|].
  unfold boundaryPoints. cbn [seq flat_map sectorPoints app]. eauto.
Qed.

Lemma sectorAngle_0 (n : nat) : sectorAngle n 0 = 0.
Proof. unfold sectorAngle, Rdiv. simpl. ring. Qed.

(** The first point drawn to is the start point of sector 0. *)
Lemma sector0_start (n : nat) (radius : R) :
  scale2 (unitAt (sectorAngle n 0)) (GearGeom.innerRadius radius)
  = sectorStart radius.
Proof.
  rewrite sectorAngle_0. unfold scale2, unitAt, sectorStart; simpl.
  rewrite cos_0, sin_0. apply Vector2_eq; simpl; ring.
Qed.

Lemma last_in {A : Type} (l : list A) (d : A) : l <> [] -> In (last l d) l.
Proof.
  induction l as [|a l IH]; [congruence|]. intros _.
  destruct l as [|b l]; [now left|].
  right. apply IH. discriminate.
Qed.

Lemma last_chain (from : Vector2) (pts : list Vector2) (d : Curve) :
  pts <> [] -> endOf (last (chain from pts) d) = last pts from.
Proof.
  revert from d; induction pts as [|q pts IH]; intros from d Hne;
    [congruence|].
  cbn [chain]. rewrite !last_cons.
  destruct pts as [|q' pts].
  - cbn [chain last]. apply getPoint_line_end.
  - rewrite IH by discriminate. reflexivity.
Qed.

(** The last point the loop draws to is not the origin. *)
Lemma last_boundaryPoint_nonzero (n : nat) (radius : R) :
  (1 <= n)%nat -> 0 < radius ->
  last (boundaryPoints n radius) zero2 <> zero2.
Proof.
  intros Hn Hr.
  assert (Hne : boundaryPoints n radius <> []).
  { destruct (boundaryPoints_head n radius Hn) as (rest & ->).
    discriminate. }
  pose proof (last_in _ zero2 Hne) as Hin.
  destruct (radii_positive radius Hr) as (_ & Hi & Ho).
  destruct (boundaryPoints_polar _ _ _ Hin) as (a & [-> | ->]);
    now apply scale_unit_nonzero.
Qed.

(** [closePath] on a path of segments that does not end where it began:
    the closing segment goes back to where the first segment started. *)
Lemma closePath_chain (from pen : Vector2) (pts : list Vector2) :
  pts <> [] -> last pts from <> from ->
  closePath (mkPath (chain from pts) pen)
  = Some (mkPath (chain from (pts ++ [from])) pen).
Proof.
  intros Hne Hlast. rewrite chain_app. cbn [chain].
  destruct pts as [|q pts]; [congruence|].
  unfold closePath. cbn [chain curves currentPoint]. cbv zeta.
  rewrite getPoint_line_start.
  change (LineCurve from q :: chain q pts) with (chain from (q :: pts)).
  fold (endOf (last (chain from (q :: pts)) (LineCurve from q))).
  rewrite last_chain by discriminate.
  rewrite equals2_false; [reflexivity|].
  intros E. apply Hlast. now symmetry.
Qed.

(** [closePath] on what the loop drew: the path began at the pen of a fresh
    shape, the origin, so that is where the closing segment goes. *)
Lemma closePath_drawTeeth (n : nat) (radius : R) :
  (1 <= n)%nat -> 0 < radius ->
  closePath (outline (GearGeom.drawTeeth n radius))
  = Some (mkPath (chain zero2 (boundaryPoints n radius ++ [zero2]))
                 (last (boundaryPoints n radius) zero2)).
Proof.
  intros Hn Hr.
  destruct (drawn_drawTeeth n radius) as (Hc & Hp & _).
  cbn [newShape outline newPath curves currentPoint app] in Hc, Hp.
  destruct (outline (GearGeom.drawTeeth n radius)) as [cs pen].
  cbn [curves currentPoint] in Hc, Hp. subst cs pen.
  apply closePath_chain.
  - destruct (boundaryPoints_head n radius Hn) as (rest & ->).
    discriminate.
  - now apply last_boundaryPoint_nonzero.
Qed.

(** The shape [useMemo] returns, for at least one tooth and a positive
    radius. *)
Lemma shape_value (p : GearGeom.Props) :
  (1 <= GearGeom.teeth p)%nat -> 0 < GearGeom.radius p ->
  GearGeom.shape p
  = Some (mkShape
            (mkPath (chain zero2
                       (boundaryPoints (GearGeom.teeth p)
                                       (GearGeom.radius p) ++ [zero2]))
                    (last (boundaryPoints (GearGeom.teeth p)
                                          (GearGeom.radius p)) zero2))
            [GearGeom.centerHole (GearGeom.radius p)]).
Proof.
  intros Hn Hr. unfold GearGeom.shape. cbv zeta.
  rewrite closePath_drawTeeth by assumption.
  destruct (drawn_drawTeeth (GearGeom.teeth p) (GearGeom.radius p))
    as (_ & _ & Hh).
  unfold pushHole. cbn [outline holes]. rewrite Hh. reflexivity.
Qed.

(** The centre hole is one full circle of radius [holeRadius] about the
    origin. *)
Lemma centerHole_circle (radius : R) :
  0 < radius ->
  isCircle zero2 (GearGeom.holeRadius radius) (GearGeom.centerHole radius).
Proof.
  intros Hr. destruct (radii_positive radius Hr) as (Hh & _ & _).
  unfold isCircle, GearGeom.centerHole, absarc.
  cbn [newPath curves app].
  eexists; split; [reflexivity|]. split; [|split].
  - apply Vector2_eq; cbn [getPoint vx vy];
      replace (0 + 0 * (PI * 2 - 0)) with 0 by ring;
      replace (0 + 1 * (PI * 2 - 0)) with (2 * PI) by ring;
      now rewrite ?cos_0, ?sin_0, ?cos_2PI, ?sin_2PI.
  - intros t. cbn [getPoint].
    match goal with
    | |- length2 (offset zero2 (mkVector2 (0 + ?k * cos ?a) _)) = _ =>
        replace (offset zero2 (mkVector2 (0 + k * cos a) (0 + k * sin a)))
          with (scale2 (unitAt a) k)
          by (apply Vector2_eq; unfold offset; simpl; ring)
    end.
    apply length2_scale_unit; lra.
  - intros theta Htheta.
    assert (HPI : 0 < PI) by apply PI_RGT_0.
    exists (theta / (2 * PI)). split.
    + split.
      * apply Rmult_le_pos; [lra|]. left. apply Rinv_0_lt_compat. lra.
      * apply Rmult_le_reg_r with (2 * PI); [lra|].
        unfold Rdiv. rewrite Rmult_assoc, Rinv_l by lra. lra.
    + cbn [getPoint].
      replace (0 + theta / (2 * PI) * (PI * 2 - 0)) with theta
        by (field; lra).
      apply Vector2_eq; unfold offset, scale2, unitAt; simpl; ring.
Qed.

Lemma vertices_chain (from pen : Vector2) (pts : list Vector2) :
  pts <> [] -> vertices (mkPath (chain from pts) pen) = from :: pts.
Proof.
  intros Hne. destruct pts as [|q pts]; [congruence|].
  unfold vertices, emitted. cbn [curves chain].
  rewrite getPoint_line_start.
  change (LineCurve from q :: chain q pts) with (chain from (q :: pts)).
  now rewrite ends_of_chain.
Qed.

(** The origin is none of the points the loop draws to. *)
Lemma origin_not_drawn (n : nat) (radius : R) :
  0 < radius -> ~ In zero2 (boundaryPoints n radius).
Proof.
  intros Hr Hin. destruct (radii_positive radius Hr) as (_ & Hi & Ho).
  destruct (boundaryPoints_polar _ _ _ Hin) as (a & [E | E]);
    symmetry in E; revert E; now apply scale_unit_nonzero.
Qed.

(** Four points per sector: the points of sector [lo + i] are the [i]-th
    group of four. *)
Lemma sector_slice (n : nat) (radius : R) (tl : list Vector2)
      (count lo i : nat) :
  (i < count)%nat ->
  firstn 4 (skipn (4 * i)
              (flat_map (sectorPoints n radius) (seq lo count) ++ tl))
  = sectorPoints n radius (lo + i).
Proof.
  revert lo i; induction count as [|count IH]; intros lo i Hi; [lia|].
  cbn [seq flat_map]. rewrite <- app_assoc.
  destruct i as [|i].
  - now rewrite Nat.add_0_r.
  - replace (4 * S i)%nat with (4 + 4 * i)%nat by lia.
    cbn [sectorPoints app Nat.add skipn].
    rewrite IH by lia. f_equal. lia.
Qed.

(** The last point the loop draws to: the inner-radius point at the mid
    angle of the last sector. *)
Lemma last_boundaryPoint (n : nat) (radius : R) (d : Vector2) :
  last (boundaryPoints (S n) radius) d
  = scale2 (unitAt (sectorMid (S n) n)) (GearGeom.innerRadius radius).
Proof.
  unfold boundaryPoints. rewrite seq_S, flat_map_app. cbn [flat_map Nat.add].
  rewrite app_nil_r. unfold sectorPoints.
  match goal with
  | |- last (?l ++ [?a; ?b; ?c; ?e]) _ = _ =>
      change (l ++ [a; b; c; e]) with (l ++ [a; b; c] ++ [e])
  end.
  now rewrite !app_assoc, last_last.
Qed.

(** The mid angle of the last sector is short of a full turn, where the
    sine is negative: the last point drawn to lies below the axis the
    start point of sector 0 is on. *)
Lemma last_boundaryPoint_below (n : nat) (radius : R) (d : Vector2) :
  0 < radius -> vy (last (boundaryPoints (S (S n)) radius) d) < 0.
Proof.
  intros Hr. rewrite last_boundaryPoint.
  destruct (radii_positive radius Hr) as (_ & Hi & _).
  unfold scale2, unitAt. cbn [vy].
  assert (HPI : 0 < PI) by apply PI_RGT_0.
  assert (Hn : 2 <= INR (S (S n))).
  { rewrite !S_INR. pose proof (pos_INR n). lra. }
  assert (Hmid : sectorMid (S (S n)) (S n)
                 = 2 * PI - PI / INR (S (S n))).
  { unfold sectorMid, sectorAngle.
    replace (INR (S n)) with (INR (S (S n)) - 1)
      by (rewrite (S_INR (S n)); ring).
    field. lra. }
  assert (Hfrac : 0 < PI / INR (S (S n)) < PI).
  { split.
    - apply Rdiv_lt_0_compat; lra.
    - apply Rmult_lt_reg_r with (INR (S (S n))); [lra|].
      unfold Rdiv. rewrite Rmult_assoc, Rinv_l by lra. nra. }
  assert (Hsin : sin (sectorMid (S (S n)) (S n)) < 0).
  { apply sin_lt_0; rewrite Hmid; lra. }
  nra.
Qed.

End Shape.

(** ** The frame callbacks *)

Section Animator.

Import Three.



(** With [axis] one of the three names, exactly one test fires. *)
Lemma frameMesh_axis (a : Axis) (p : GearGeom.Props) (delta : R) (m : Mesh) :
  GearGeom.axis p = axisName a ->
  GearGeom.frameMesh p delta m = addRotation a (GearGeom.speed p * delta) m.
Proof.
  intros H. unfold GearGeom.frameMesh. rewrite H. now destruct a.
Qed.

(** With any other [axis], none does. *)
Lemma frameMesh_other (p : GearGeom.Props) (delta : R) (m : Mesh) :
  (forall a, GearGeom.axis p <> axisName a) ->
  GearGeom.frameMesh p delta m = m.
Proof.
  intros H. unfold GearGeom.frameMesh.
  pose proof (H AxisX) as Hx. pose proof (H AxisY) as Hy.
  pose proof (H AxisZ) as Hz.
  apply String.eqb_neq in Hx, Hy, Hz. cbn [axisName] in Hx, Hy, Hz.
  now rewrite Hy, Hx, Hz.
Qed.

Lemma axis_cases (s : string) :
  (exists a, s = axisName a) \/ (forall a, s <> axisName a).
Proof.
  destruct (string_dec s "x") as [-> | Hx]; [left; now exists AxisX|].
  destruct (string_dec s "y") as [-> | Hy]; [left; now exists AxisY|].
  destruct (string_dec s "z") as [-> | Hz]; [left; now exists AxisZ|].
  right. intros [| |]; assumption.
Qed.

Lemma addRotation_position (a : Axis) (d : R) (m : Mesh) :
  position (addRotation a d m) = position m.
Proof. now destruct a. Qed.

Lemma addRotation_component (a b : Axis) (d : R) (m : Mesh) :
  component b (rotation (addRotation a d m))
  = if match a, b with
       | AxisX, AxisX | AxisY, AxisY | AxisZ, AxisZ => true
       | _, _ => false
       end
    then component b (rotation m) + d
    else component b (rotation m).
Proof. now destruct a, b. Qed.




End Animator.

(** ** The animator's contract *)

(** C8.  A frame of the continuous rotation changes the rotation on the
    chosen axis and nothing else: the position and the rotation on the two
    other axes stay; with an [axis] that is none of ["x"], ["y"], ["z"] the
    whole transform stays. *)
Theorem frame_changes_only_chosen_axis
        (p : GearGeom.Props) (delta : R) (m : Three.Mesh) :
  Three.position (GearGeom.frameMesh p delta m) = Three.position m
  /\ (forall a b,
         GearGeom.axis p = axisName a -> b <> a ->
         component b (Three.rotation (GearGeom.frameMesh p delta m))
         = component b (Three.rotation m))
  /\ ((forall a, GearGeom.axis p <> axisName a) ->
      GearGeom.frameMesh p delta m = m).
Proof.
  split; [|split].
  - destruct (axis_cases (GearGeom.axis p)) as [(a & Ha) | Hother].
    + rewrite (frameMesh_axis a) by exact Ha. apply addRotation_position.
    + now rewrite frameMesh_other.
  - intros a b Ha Hb. rewrite (frameMesh_axis a) by exact Ha.
    rewrite addRotation_component. destruct a, b; congruence.
  - apply frameMesh_other.
Qed.

Lemma frame_changes_only_chosen_axis_witness :
  let m := Three.mkMesh (Three.mkVector3 1 2 3) (Three.mkVector3 4 5 6) in
  let tilted :=
    GearGeom.mkProps 12 1 0.5 "orange" 1 (Three.mkVector3 0 0 0)
                     (Three.mkVector3 0 0 0) "w" in
  (GearGeom.axis SystemSpur.gearB = axisName AxisY
   /\ AxisX <> AxisY
   /\ component AxisX
        (Three.rotation (GearGeom.frameMesh SystemSpur.gearB 0.5 m))
      = component AxisX (Three.rotation m))
  /\ ((forall a, GearGeom.axis tilted <> axisName a)
      /\ GearGeom.frameMesh tilted 0.5 m = m).
Proof.
  intros m tilted.
  assert (Hx : AxisX <> AxisY) by discriminate.
  assert (Hw : forall a, GearGeom.axis tilted <> axisName a)
    by (intros [| |]; discriminate).
  split.
  - split; [reflexivity|]. split; [exact Hx|].
    exact (proj1 (proj2 (frame_changes_only_chosen_axis SystemSpur.gearB 0.5 m))
                 AxisY AxisX eq_refl Hx).
  - split; [exact Hw|].
    exact (proj2 (proj2 (frame_changes_only_chosen_axis tilted 0.5 m)) Hw).
Defined.

(** C4.  The rack's frame sets [position.x] to [1.5 * sin (t * speed)], the
    amplitude being the constant [1.5] of the source; at [t = 0] that is [0].
    Nothing else of the transform changes. *)
Theorem rack_oscillates (p : RackGeom.Props) (t : R) (m : Three.Mesh) :
  exists m' m0,
    RackGeom.frame p t (Some m) = Some m'
    /\ Three.x3 (Three.position m') = 1.5 * sin (t * RackGeom.speed p)
    /\ Three.y3 (Three.position m') = Three.y3 (Three.position m)
    /\ Three.z3 (Three.position m') = Three.z3 (Three.position m)
    /\ Three.rotation m' = Three.rotation m
    /\ RackGeom.frame p 0 (Some m) = Some m0
    /\ Three.x3 (Three.position m0) = 0.
Proof.
  cbn [RackGeom.frame]. do 2 eexists.
  split; [reflexivity|].
  do 4 (split; [cbn; try ring; reflexivity|]).
  split; [reflexivity|].
  cbn. rewrite Rmult_0_l, sin_0. ring.
Qed.



(** ** The profile generator's contract *)

(** C9.  The shape depends on [teeth] and [radius] only: two components that
    agree on them get the same shape, whatever their colour, speed, position,
    rotation, axis and width; the width is the extrusion depth and nothing
    else of the extrusion settings depends on the props. *)
Theorem shape_depends_on_teeth_and_radius (p q : GearGeom.Props) :
  GearGeom.teeth p = GearGeom.teeth q ->
  GearGeom.radius p = GearGeom.radius q ->
  GearGeom.shape p = GearGeom.shape q
  /\ GearGeom.depth (GearGeom.extrudeSettings p) = GearGeom.width p
  /\ GearGeom.extrudeSettings p
     = GearGeom.mkExtrudeSettings (GearGeom.width p) true 2 1 0.05 0.05.
Proof.
  intros Ht Hr. unfold GearGeom.shape. rewrite Ht, Hr. repeat split.
Qed.

Lemma shape_depends_on_teeth_and_radius_witness :
  let thin :=
    GearGeom.mkProps 12 1 0.2 "gold" 0.1 (Three.mkVector3 0 (-0.5) 0)
                     (Three.mkVector3 0 0 (PI / 12)) "z" in
  GearGeom.teeth GearGeom.defaults = GearGeom.teeth thin
  /\ GearGeom.radius GearGeom.defaults = GearGeom.radius thin
  /\ GearGeom.shape GearGeom.defaults = GearGeom.shape thin.
Proof.
  intros thin. split; [reflexivity|]. split; [reflexivity|].
  exact (proj1 (shape_depends_on_teeth_and_radius
                  GearGeom.defaults thin eq_refl eq_refl)).
Defined.

(** C5.  For at least three teeth and a positive radius, the points the loop
    draws lines to are, sector after sector, the specification's four points
    of each sector in the specification's order: inner and outer radius at
    the sector's angle, then outer and inner radius at the mid angle.  In
    the finished shape they are the ends of segments [4 * i] to
    [4 * i + 3]. *)
Theorem sector_points_in_order (p : GearGeom.Props) (i : nat) :
  (3 <= GearGeom.teeth p)%nat -> 0 < GearGeom.radius p ->
  (i < GearGeom.teeth p)%nat ->
  emitted (Three.outline (GearGeom.drawTeeth (GearGeom.teeth p)
                                             (GearGeom.radius p)))
  = flat_map (sectorPoints (GearGeom.teeth p) (GearGeom.radius p))
             (seq 0 (GearGeom.teeth p))
  /\ exists s,
      GearGeom.shape p = Some s
      /\ firstn 4 (skipn (4 * i) (emitted (Three.outline s)))
         = sectorPoints (GearGeom.teeth p) (GearGeom.radius p) i.
Proof.
  intros Hn Hr Hi. split.
  - unfold emitted. rewrite curves_drawTeeth. apply ends_of_chain.
  - rewrite shape_value by (assumption || lia).
    eexists; split; [reflexivity|].
    unfold emitted. cbn [Three.outline Three.curves].
    rewrite ends_of_chain. unfold boundaryPoints.
    now rewrite sector_slice.
Qed.

Lemma sector_points_in_order_witness :
  (3 <= GearGeom.teeth GearGeom.defaults)%nat
  /\ 0 < GearGeom.radius GearGeom.defaults
  /\ (5 < GearGeom.teeth GearGeom.defaults)%nat
  /\ exists s,
      GearGeom.shape GearGeom.defaults = Some s
      /\ firstn 4 (skipn (4 * 5) (emitted (Three.outline s)))
         = sectorPoints 12 1 5.
Proof.
  assert (Hn : (3 <= GearGeom.teeth GearGeom.defaults)%nat)
    by (cbn; lia).
  assert (Hr : 0 < GearGeom.radius GearGeom.defaults) by (cbn; lra).
  assert (Hi : (5 < GearGeom.teeth GearGeom.defaults)%nat) by (cbn; lia).
  split; [exact Hn|]. split; [exact Hr|]. split; [exact Hi|].
  exact (proj2 (sector_points_in_order GearGeom.defaults 5 Hn Hr Hi)).
Defined.

(** C10.  For at least three teeth and a positive radius the outline begins
    at the origin: the first command is a [lineTo] on a fresh shape, whose
    pen is at [(0, 0)], so the first segment runs from the origin to the
    inner-radius point at angle 0.  The outline's vertices are the origin,
    at distance [0], then the [4 * teeth] sector points, none of which is the
    origin, and the origin again where [closePath] joins the end to the
    start. *)
Theorem outline_begins_at_origin (p : GearGeom.Props) :
  (3 <= GearGeom.teeth p)%nat -> 0 < GearGeom.radius p ->
  Three.currentPoint (Three.outline Three.newShape) = Three.zero2
  /\ exists s rest,
      GearGeom.shape p = Some s
      /\ Three.curves (Three.outline s)
         = Three.LineCurve Three.zero2 (sectorStart (GearGeom.radius p))
           :: rest
      /\ vertices (Three.outline s)
         = Three.zero2
           :: boundaryPoints (GearGeom.teeth p) (GearGeom.radius p)
           ++ [Three.zero2]
      /\ List.length (boundaryPoints (GearGeom.teeth p) (GearGeom.radius p))
         = (4 * GearGeom.teeth p)%nat
      /\ ~ In Three.zero2
              (boundaryPoints (GearGeom.teeth p) (GearGeom.radius p))
      /\ Three.length2 Three.zero2 = 0.
Proof.
  intros Hn Hr. split; [reflexivity|].
  rewrite shape_value by (assumption || lia).
  destruct (boundaryPoints_head (GearGeom.teeth p) (GearGeom.radius p))
    as (rest & Hbp); [lia|].
  rewrite sector0_start in Hbp.
  exists (Three.mkShape
            (Three.mkPath
               (chain Three.zero2
                      (boundaryPoints (GearGeom.teeth p) (GearGeom.radius p)
                       ++ [Three.zero2]))
               (last (boundaryPoints (GearGeom.teeth p) (GearGeom.radius p))
                     Three.zero2))
            [GearGeom.centerHole (GearGeom.radius p)]).
  exists (chain (sectorStart (GearGeom.radius p)) (rest ++ [Three.zero2])).
  split; [reflexivity|]. cbn [Three.outline Three.curves].
  split; [now rewrite Hbp|].
  split.
  { apply vertices_chain. rewrite Hbp. discriminate. }
  split; [apply length_boundaryPoints|].
  split; [now apply origin_not_drawn | apply length2_zero2].
Qed.

Lemma outline_begins_at_origin_witness :
  (3 <= GearGeom.teeth SystemSpur.gearA)%nat
  /\ 0 < GearGeom.radius SystemSpur.gearA
  /\ exists s rest,
      GearGeom.shape SystemSpur.gearA = Some s
      /\ Three.curves (Three.outline s)
         = Three.LineCurve Three.zero2 (sectorStart 1) :: rest.
Proof.
  assert (Hn : (3 <= GearGeom.teeth SystemSpur.gearA)%nat) by (cbn; lia).
  assert (Hr : 0 < GearGeom.radius SystemSpur.gearA) by (cbn; lra).
  split; [exact Hn|]. split; [exact Hr|].
  destruct (proj2 (outline_begins_at_origin SystemSpur.gearA Hn Hr))
    as (s & rest & Hs & Hc & _).
  exists s, rest. split; [exact Hs | exact Hc].
Defined.

(** ** Where the outline departs from the contract *)

(** C1.  With the defaults, 12 teeth and radius 1, the loop draws to 48
    points, all on the inner or the outer circle, and the shape has its one
    circular hole of radius [holeRadius 1] about the origin; but the outline
    is made of 49 segments, not 48, and the origin is one of its vertices, at
    distance [0], which is neither [innerRadius 1] nor [outerRadius 1]: not
    every boundary vertex is on one of the two circles. *)
Theorem default_outline_has_origin_vertex :
  exists s hole,
    GearGeom.shape GearGeom.defaults = Some s
    /\ List.length (boundaryPoints 12 1) = 48%nat
    /\ List.length (Three.curves (Three.outline s)) = 49%nat
    /\ vertices (Three.outline s)
       = Three.zero2 :: boundaryPoints 12 1 ++ [Three.zero2]
    /\ Three.length2 Three.zero2 <> GearGeom.innerRadius 1
    /\ Three.length2 Three.zero2 <> GearGeom.outerRadius 1
    /\ ~ (forall v,
             In v (vertices (Three.outline s)) ->
             Three.length2 v = GearGeom.innerRadius 1
             \/ Three.length2 v = GearGeom.outerRadius 1)
    /\ Three.holes s = [hole]
    /\ isCircle Three.zero2 (GearGeom.holeRadius 1) hole.
Proof.
  assert (Hn : (1 <= GearGeom.teeth GearGeom.defaults)%nat) by (cbn; lia).
  assert (Hr : 0 < GearGeom.radius GearGeom.defaults) by (cbn; lra).
  rewrite (shape_value GearGeom.defaults Hn Hr).
  cbn [GearGeom.teeth GearGeom.radius GearGeom.defaults].
  assert (Hne : boundaryPoints 12 1 ++ [Three.zero2] <> [])
    by (intros E; apply app_eq_nil in E; destruct E; discriminate).
  assert (Hin : Three.length2 Three.zero2 <> GearGeom.innerRadius 1)
    by (rewrite length2_zero2; unfold GearGeom.innerRadius; lra).
  assert (Hout : Three.length2 Three.zero2 <> GearGeom.outerRadius 1)
    by (rewrite length2_zero2; unfold GearGeom.outerRadius; lra).
  do 2 eexists. split; [reflexivity|].
  cbn [Three.outline Three.curves Three.holes].
  split; [apply length_boundaryPoints|].
  split.
  { rewrite length_chain, length_app, length_boundaryPoints. reflexivity. }
  rewrite (vertices_chain _ _ _ Hne).
  split; [reflexivity|]. split; [exact Hin|]. split; [exact Hout|].
  split.
  { intros Hall.
    destruct (Hall Three.zero2 (or_introl eq_refl)); contradiction. }
  split; [reflexivity|].
  apply centerHole_circle. lra.
Qed.

(** C6.  With the defaults the closed outline starts at the origin and ends
    at the origin: [closePath] joins the last point to the start of the first
    segment, which is the pen position of the fresh shape.  The start point
    of sector 0, [(innerRadius 1, 0)], is a different point; it is where the
    first segment ends, and the last point the loop draws to is not it
    either. *)
Theorem default_outline_closes_at_origin :
  exists s first,
    GearGeom.shape GearGeom.defaults = Some s
    /\ hd_error (Three.curves (Three.outline s)) = Some first
    /\ Three.getPoint first 0 = Three.zero2
    /\ Three.getPoint (last (Three.curves (Three.outline s)) first) 1
       = Three.zero2
    /\ endOf first = sectorStart 1
    /\ Three.zero2 <> sectorStart 1
    /\ last (boundaryPoints 12 1) Three.zero2 <> sectorStart 1.
Proof.
  assert (Hn : (1 <= GearGeom.teeth GearGeom.defaults)%nat) by (cbn; lia).
  assert (Hr : 0 < GearGeom.radius GearGeom.defaults) by (cbn; lra).
  rewrite (shape_value GearGeom.defaults Hn Hr).
  cbn [GearGeom.teeth GearGeom.radius GearGeom.defaults].
  destruct (boundaryPoints_head 12 1) as (rest & Hbp); [lia|].
  rewrite sector0_start in Hbp.
  exists (Three.mkShape
            (Three.mkPath (chain Three.zero2
                                 (boundaryPoints 12 1 ++ [Three.zero2]))
                          (last (boundaryPoints 12 1) Three.zero2))
            [GearGeom.centerHole 1]).
  exists (Three.LineCurve Three.zero2 (sectorStart 1)).
  split; [reflexivity|]. cbn [Three.outline Three.curves].
  split; [now rewrite Hbp|].
  split; [apply getPoint_line_start|].
  split.
  { fold (endOf
            (last (chain Three.zero2 (boundaryPoints 12 1 ++ [Three.zero2]))
                  (Three.LineCurve Three.zero2 (sectorStart 1)))).
    rewrite last_chain, last_last; [reflexivity|].
    intros E; apply app_eq_nil in E; destruct E; discriminate. }
  split; [apply getPoint_line_end|].
  split.
  - unfold sectorStart, Three.zero2, GearGeom.innerRadius.
    intros E. injection E as E. lra.
  - intros E.
    pose proof (last_boundaryPoint_below 10 1 Three.zero2 Rlt_0_1) as Hy.
    rewrite E in Hy. cbn [sectorStart Three.vy] in Hy. lra.
Qed.

(** ** Further properties of the generator *)

Section Generator.

Import Three.

Lemma scale_unit_nonzero' (a k : R) : k <> 0 -> scale2 (unitAt a) k <> zero2.
Proof.
  intros Hk Heq. unfold scale2, unitAt, zero2 in Heq; simpl in Heq.
  injection Heq as Hx Hy.
  pose proof (sin2_cos2 a) as H1. unfold Rsqr in H1.
  apply Rmult_integral in Hx, Hy.
  destruct Hx as [Hx | Hx]; [|contradiction].
  destruct Hy as [Hy | Hy]; [|contradiction].
  rewrite Hx, Hy in H1. lra.
Qed.

Lemma boundaryPoints_nonempty (n : nat) (radius : R) :
  (1 <= n)%nat -> boundaryPoints n radius <> [].
Proof.
  intros Hn. destruct (boundaryPoints_head n radius Hn) as (rest & ->).
  discriminate.
Qed.

(** With radius 0 every point the loop draws to is the origin. *)
Lemma boundaryPoints_radius0 (n : nat) (q : Vector2) :
  In q (boundaryPoints n 0) -> q = zero2.
Proof.
  intros Hin. destruct (boundaryPoints_polar _ _ _ Hin) as (a & [-> | ->]);
    unfold scale2, unitAt, zero2, GearGeom.innerRadius, GearGeom.outerRadius;
    apply Vector2_eq; simpl; ring.
Qed.

Lemma last_boundaryPoint_zero_iff (n : nat) (radius : R) :
  (1 <= n)%nat ->
  last (boundaryPoints n radius) zero2 = zero2 <-> radius = 0.
Proof.
  intros Hn.
  pose proof (last_in _ zero2 (boundaryPoints_nonempty n radius Hn)) as Hin.
  split.
  - intros E. destruct (Req_dec_T radius 0) as [|Hr]; [assumption|].
    exfalso. rewrite E in Hin.
    destruct (boundaryPoints_polar _ _ _ Hin) as (a & [E' | E']);
      symmetry in E'; revert E'; apply scale_unit_nonzero';
      unfold GearGeom.innerRadius, GearGeom.outerRadius; lra.
  - intros ->. now apply (boundaryPoints_radius0 n).
Qed.

(** [closePath] on any path of segments. *)
Lemma closePath_chain_any (from pen : Vector2) (pts : list Vector2) :
  pts <> [] ->
  closePath (mkPath (chain from pts) pen)
  = Some (mkPath (chain from (if equals2 from (last pts from)
                              then pts else pts ++ [from])) pen).
Proof.
  intros Hne. destruct (equals2 from (last pts from)) eqn:E.
  - destruct pts as [|q pts]; [congruence|].
    unfold closePath. cbn [chain curves currentPoint]. cbv zeta.
    rewrite getPoint_line_start.
    change (LineCurve from q :: chain q pts) with (chain from (q :: pts)).
    fold (endOf (last (chain from (q :: pts)) (LineCurve from q))).
    rewrite last_chain by discriminate. now rewrite E.
  - apply closePath_chain; [assumption|].
    intros E'. rewrite E' in E.
    assert (equals2 from from = true) by now apply equals2_true.
    congruence.
Qed.

(** The shape for any radius, with at least one tooth: the closing segment
    is there unless the radius is 0. *)
Lemma shape_value_any (p : GearGeom.Props) :
  (1 <= GearGeom.teeth p)%nat ->
  GearGeom.shape p
  = Some (mkShape
            (mkPath
               (chain zero2
                  (if Req_dec_T (GearGeom.radius p) 0
                   then boundaryPoints (GearGeom.teeth p) (GearGeom.radius p)
                   else boundaryPoints (GearGeom.teeth p) (GearGeom.radius p)
                        ++ [zero2]))
               (last (boundaryPoints (GearGeom.teeth p) (GearGeom.radius p))
                     zero2))
            [GearGeom.centerHole (GearGeom.radius p)]).
Proof.
  intros Hn. unfold GearGeom.shape. cbv zeta.
  destruct (drawn_drawTeeth (GearGeom.teeth p) (GearGeom.radius p))
    as (Hc & Hp & Hh).
  cbn [newShape outline newPath curves currentPoint holes app] in Hc, Hp, Hh.
  destruct (GearGeom.drawTeeth (GearGeom.teeth p) (GearGeom.radius p))
    as [[cs pen] hs].
  cbn [outline curves currentPoint holes] in *. subst cs pen hs.
  rewrite closePath_chain_any by now apply boundaryPoints_nonempty.
  unfold pushHole. cbn [outline holes app].
  pose proof (last_boundaryPoint_zero_iff _ (GearGeom.radius p) Hn) as Hz.
  destruct (Req_dec_T (GearGeom.radius p) 0) as [Hr | Hr].
  - rewrite (proj2 (equals2_true _ _)); [reflexivity|].
    symmetry. now apply Hz.
  - rewrite equals2_false; [reflexivity|].
    intros E. apply Hr, Hz. now symmetry.
Qed.

End Generator.

(** For a natural tooth count the generator fails exactly when there is no
    tooth: with [teeth = 0] the loop draws nothing and [closePath] throws on
    the empty path; with at least one tooth a shape is returned, whatever the
    radius. *)
Lemma shape_fails_iff_no_teeth (p : GearGeom.Props) :
  GearGeom.shape p = None <-> GearGeom.teeth p = 0%nat.
Proof.
  split.
  - intros Hnone. destruct (GearGeom.teeth p) as [|n] eqn:Hn; [reflexivity|].
    rewrite shape_value_any in Hnone by lia. discriminate.
  - intros Hn. unfold GearGeom.shape. now rewrite Hn.
Qed.

(** X3.  Whenever the generator returns a shape, its outline is a closed
    polyline: only segments, each starting where the one before ends, the
    last one ending where the first one starts. *)
Theorem shape_outline_closed (p : GearGeom.Props) (s : Three.Shape) :
  GearGeom.shape p = Some s -> closedPolyline (Three.outline s).
Proof.
  intros Hs.
  assert (Hn : (1 <= GearGeom.teeth p)%nat).
  { destruct (Nat.eq_dec (GearGeom.teeth p) 0) as [E | E]; [|lia].
    apply shape_fails_iff_no_teeth in E. congruence. }
  rewrite shape_value_any in Hs by exact Hn. injection Hs as <-.
  cbn [Three.outline]. unfold closedPolyline. cbn [Three.curves].
  exists Three.zero2. eexists. split; [|split; [reflexivity|]].
  - destruct (Req_dec_T (GearGeom.radius p) 0).
    + now apply boundaryPoints_nonempty.
    + intros E; apply app_eq_nil in E; destruct E; discriminate.
  - destruct (Req_dec_T (GearGeom.radius p) 0) as [Hr | Hr].
    + now apply last_boundaryPoint_zero_iff.
    + apply last_last.
Qed.

Lemma shape_outline_closed_witness :
  exists s,
    GearGeom.shape SystemWorm.wheel = Some s
    /\ closedPolyline (Three.outline s).
Proof.
  assert (Hn : (1 <= GearGeom.teeth SystemWorm.wheel)%nat) by (cbn; lia).
  eexists. split; [exact (shape_value_any SystemWorm.wheel Hn)|].
  exact (shape_outline_closed SystemWorm.wheel _
           (shape_value_any SystemWorm.wheel Hn)).
Defined.

(** X4.  The number of segments of the outline: four per tooth and the
    closing segment, except that with radius 0, where every point drawn to
    is the origin, the path already ends where it starts and [closePath]
    adds nothing. *)
Theorem shape_segment_count (p : GearGeom.Props) (s : Three.Shape) :
  GearGeom.shape p = Some s ->
  List.length (Three.curves (Three.outline s))
  = ((4 * GearGeom.teeth p)
     + (if Req_dec_T (GearGeom.radius p) 0 then 0 else 1))%nat
  /\ (GearGeom.radius p = 0 ->
      forall v, In v (vertices (Three.outline s)) -> v = Three.zero2).
Proof.
  intros Hs.
  assert (Hn : (1 <= GearGeom.teeth p)%nat).
  { destruct (Nat.eq_dec (GearGeom.teeth p) 0) as [E | E]; [|lia].
    apply shape_fails_iff_no_teeth in E. congruence. }
  rewrite shape_value_any in Hs by exact Hn. injection Hs as <-.
  cbn [Three.outline Three.curves]. split.
  - rewrite length_chain.
    destruct (Req_dec_T (GearGeom.radius p) 0);
      rewrite ?length_app, length_boundaryPoints; simpl; lia.
  - intros Hr v. destruct (Req_dec_T (GearGeom.radius p) 0); [|contradiction].
    rewrite vertices_chain by now apply boundaryPoints_nonempty.
    rewrite Hr. intros [<- | Hin]; [reflexivity|].
    now apply (boundaryPoints_radius0 (GearGeom.teeth p)).
Qed.

Lemma shape_segment_count_witness :
  let flat :=
    GearGeom.mkProps 5 0 0.5 "orange" 1 (Three.mkVector3 0 0 0)
                     (Three.mkVector3 0 0 0) "y" in
  exists s,
    GearGeom.shape flat = Some s
    /\ List.length (Three.curves (Three.outline s))
       = ((4 * 5) + (if Req_dec_T 0 0 then 0 else 1))%nat
    /\ (forall v, In v (vertices (Three.outline s)) -> v = Three.zero2).
Proof.
  intros flat.
  assert (Hn : (1 <= GearGeom.teeth flat)%nat) by (cbn; lia).
  eexists. split; [exact (shape_value_any flat Hn)|].
  pose proof (shape_segment_count flat _ (shape_value_any flat Hn)) as H.
  split; [exact (proj1 H) | exact (proj2 H eq_refl)].
Defined.

(** ** Further properties of the animators *)


(** ** Properties of the systems *)

Section Systems.

Import Three.




End Systems.

(** X13.  Every gear the catalogue's systems render meets the generator's
    contract: it has 12 teeth and radius 1, so its shape is built (the
    generator does not fail) and is the same shape as the default gear's,
    whatever the colour, speed, width, axis and placement of the caller. *)
Theorem catalogue_gears_share_the_default_shape
        (e : CatalogEntry) (p : GearGeom.Props) :
  In e gearSystems -> In p (gearsOf (Component e)) ->
  GearGeom.teeth p = 12%nat
  /\ GearGeom.radius p = 1
  /\ GearGeom.shape p = GearGeom.shape GearGeom.defaults
  /\ GearGeom.shape p <> None.
Proof.
  intros He Hp.
  assert (H : GearGeom.teeth p = 12%nat /\ GearGeom.radius p = 1).
  { unfold gearSystems in He. cbn [In] in He.
    repeat (destruct He as [<- | He]); try contradiction;
      cbn in Hp; repeat (destruct Hp as [<- | Hp]); try contradiction;
      split; reflexivity. }
  destruct H as (Ht & Hr). split; [exact Ht|]. split; [exact Hr|]. split.
  - unfold GearGeom.shape. now rewrite Ht, Hr.
  - rewrite shape_fails_iff_no_teeth, Ht. discriminate.
Qed.

Lemma catalogue_gears_share_the_default_shape_witness :
  let e := nth 3 gearSystems (mkCatalogEntry 0 "" SystemSpurScene "" "" "") in
  In e gearSystems
  /\ In SystemBevel.gearB (gearsOf (Component e))
  /\ GearGeom.shape SystemBevel.gearB = GearGeom.shape GearGeom.defaults.
Proof.
  intros e.
  assert (He : In e gearSystems) by (cbn; tauto).
  assert (Hp : In SystemBevel.gearB (gearsOf (Component e))) by (cbn; tauto).
  split; [exact He|]. split; [exact Hp|].
  exact (proj1 (proj2 (proj2
           (catalogue_gears_share_the_default_shape e SystemBevel.gearB
              He Hp)))).
Defined.



(** ** Rounding to a double *)


(** The specification of the primitive floats rounds a mantissa by shifting
    it right and looking at the bits shifted out.  What the code's products
    need of it: a product of two normal doubles, away from underflow and
    overflow, is a normal double within one unit in the last place of the
    exact product. *)

Section DoubleRounding.

Local Open Scope Z_scope.













End DoubleRounding.

(** ** The derived radii in doubles *)




(** ** The rotation in doubles *)

Section DoubleFrames.

Lemma double_frameMesh_axis (a : Axis) (axis : string) (speed delta : float)
      (m : Double.Mesh) :
  axis = axisName a ->
  Double.frameMesh axis speed delta m
  = Double.addRotation a (speed * delta)%float m.
Proof. intros ->. now destruct a. Qed.

Lemma double_addRotation_component (a b : Axis) (d : float)
      (m : Double.Mesh) :
  Double.component b (Double.rotation (Double.addRotation a d m))
  = if match a, b with
       | AxisX, AxisX | AxisY, AxisY | AxisZ, AxisZ => true
       | _, _ => false
       end
    then (Double.component b (Double.rotation m) + d)%float
    else Double.component b (Double.rotation m).
Proof. now destruct a, b. Qed.

Lemma double_addRotation_position (a : Axis) (d : float) (m : Double.Mesh) :
  Double.position (Double.addRotation a d m) = Double.position m.
Proof. now destruct a. Qed.

End DoubleFrames.

(** C3, the claim as stated fails on the code: with speed 1 about ["y"] and
    [rotation.y] at [0.1], the frames [0.2] then [0.3] leave
    [0.6000000000000001], while one frame of [0.2 + 0.3] leaves [0.6], which
    is also what [r0 + s * (d1 + d2)] evaluates to: the accumulated rotation
    depends on how the time is cut into frames. *)
Lemma double_rotation_depends_on_chunking :
  let m0 :=
    Double.mkMesh (Double.mkVector3 0 0 0) (Double.mkVector3 0 0.1 0) in
  exists m2 m1,
    Double.frames "y" 1 [0.2; 0.3]%float (Some m0) = Some m2
    /\ Double.frame "y" 1 (0.2 + 0.3)%float (Some m0) = Some m1
    /\ Double.y3 (Double.rotation m2) = 0.6000000000000001%float
    /\ Double.y3 (Double.rotation m1) = 0.6%float
    /\ (0.1 + 1 * (0.2 + 0.3))%float = 0.6%float
    /\ (Double.y3 (Double.rotation m2) =? Double.y3 (Double.rotation m1))%float
       = false.
Proof.
  intros m0. do 2 eexists.
  split; [reflexivity|]. split; [reflexivity|]. repeat split.
Qed.

(** C3.  For every speed and every frame deltas [d1, ..., dn], the frames
    leave a mounted mesh mounted; its rotation on the chosen axis is
    [(((r0 + s * d1) + s * d2) + ...) + s * dn], every product and every sum
    rounded to a double, taken in the order of the frames; its rotation on
    the two other axes and its position are what they were. *)
Theorem double_rotation_accumulates
        (a : Axis) (axis : string) (speed : float) (deltas : list float)
        (m : Double.Mesh) :
  axis = axisName a ->
  exists m',
    Double.frames axis speed deltas (Some m) = Some m'
    /\ Double.component a (Double.rotation m')
       = Double.accumulate speed deltas
           (Double.component a (Double.rotation m))
    /\ (forall b, b <> a ->
          Double.component b (Double.rotation m')
          = Double.component b (Double.rotation m))
    /\ Double.position m' = Double.position m.
Proof.
  intros Ha. unfold Double.frames, Double.accumulate.
  revert m. induction deltas as [|d deltas IH]; intros m; cbn [fold_left].
  - exists m. repeat split.
  - cbn [Double.frame]. rewrite (double_frameMesh_axis a) by exact Ha.
    destruct (IH (Double.addRotation a (speed * d)%float m))
      as (m' & Hm' & Hacc & Hother & Hpos).
    exists m'. split; [exact Hm'|]. split; [|split].
    + rewrite Hacc, double_addRotation_component. now destruct a.
    + intros b Hb. rewrite (Hother b Hb), double_addRotation_component.
      destruct a, b; congruence.
    + now rewrite Hpos, double_addRotation_position.
Qed.

Lemma double_rotation_accumulates_witness :
  let m0 :=
    Double.mkMesh (Double.mkVector3 0 0 0) (Double.mkVector3 0 0.1 0) in
  ("y" = axisName AxisY)%string
  /\ exists m',
      Double.frames "y" 1 [0.2; 0.3]%float (Some m0) = Some m'
      /\ Double.component AxisY (Double.rotation m')
         = Double.accumulate 1 [0.2; 0.3]%float 0.1.
Proof.
  intros m0. split; [reflexivity|].
  destruct (double_rotation_accumulates AxisY "y" 1 [0.2; 0.3]%float m0
              eq_refl) as (m' & Hm' & Hacc & _).
  exists m'. split; [exact Hm' | exact Hacc].
Defined.

(** X9.  The worm turns about its own [z] axis only: after any frames a
    mounted worm is still mounted, [rotation.z] is the left-to-right rounded
    accumulation [((z0 + s * d1) + ...) + s * dn], and its position and its
    rotation on [x] and [y] are what they were. *)
Theorem double_worm_turns_about_z (speed : float) (deltas : list float)
        (m : Double.Mesh) :
  exists m',
    Double.wormFrames speed deltas (Some m) = Some m'
    /\ Double.z3 (Double.rotation m')
       = Double.accumulate speed deltas (Double.z3 (Double.rotation m))
    /\ Double.x3 (Double.rotation m') = Double.x3 (Double.rotation m)
    /\ Double.y3 (Double.rotation m') = Double.y3 (Double.rotation m)
    /\ Double.position m' = Double.position m.
Proof.
  unfold Double.wormFrames, Double.accumulate.
  revert m. induction deltas as [|d deltas IH]; intros m; cbn [fold_left].
  - exists m. repeat split.
  - cbn [Double.wormFrame].
    destruct (IH (Double.addRotationZ (speed * d)%float m))
      as (m' & Hm' & Hz & Hx & Hy & Hpos).
    exists m'. split; [exact Hm'|].
    rewrite Hz, Hx, Hy, Hpos. repeat split.
Qed.
